(** * int_endian.h: endianness-tagged scalar types

    A shallow embedding of [src/int_endian.h].  Fixed-width C++ integers are
    modelled as [Z] with every implicit conversion and every wrap-around
    written out; [float] and [double] objects are modelled by their IEEE-754
    bit patterns (the header never performs arithmetic on them, it only moves
    them through a union).

    Build configuration.  The header is parameterised by two preprocessor
    facts:
    - [__BYTE_ORDER__ == __ORDER_LITTLE_ENDIAN__], modelled by the boolean
      [host_little_endian] threaded through every wrapper operation;
    - [__ARM_ARCH].  The primitives embedded below are the portable branches,
      the ones compiled when [__ARM_ARCH] is not defined (the innermost
      [#else] of each primitive).  The ARMv7 formulation of the 64-bit
      primitive, which is plain C++ on top of the 32-bit one, is embedded
      in addition as [_generic_swap64_armv7].  The remaining ARM branches
      (the [rev16] and [rev] instructions in inline assembly, and the
      in-place byte exchanges through a pointer cast) are not embedded. *)

From Stdlib Require Import ZArith List Bool Lia.
Import ListNotations.
Local Open Scope Z_scope.

(** ** Fixed-width integer types of <stdint.h> *)

Inductive int_type : Set :=
| int8_t | uint8_t
| int16_t | uint16_t
| int32_t | uint32_t
| int64_t | uint64_t.

(** [sizeof(_T)], in bytes. *)
Definition sizeof (T : int_type) : Z :=
  match T with
  | int8_t | uint8_t => 1
  | int16_t | uint16_t => 2
  | int32_t | uint32_t => 4
  | int64_t | uint64_t => 8
  end.

Definition is_signed (T : int_type) : bool :=
  match T with
  | int8_t | int16_t | int32_t | int64_t => true
  | uint8_t | uint16_t | uint32_t | uint64_t => false
  end.

Definition bit_width (T : int_type) : Z := 8 * sizeof T.

(** The values an object of type [T] can hold. *)
Definition representable (T : int_type) (v : Z) : Prop :=
  if is_signed T
  then - 2 ^ (bit_width T - 1) <= v < 2 ^ (bit_width T - 1)
  else 0 <= v < 2 ^ bit_width T.

(** Implicit conversion of an integer value to type [T]: reduction modulo
    [2 ^ bit_width T], into the signed or the unsigned range. *)
Definition convert (T : int_type) (v : Z) : Z :=
  if is_signed T
  then (v + 2 ^ (bit_width T - 1)) mod 2 ^ bit_width T - 2 ^ (bit_width T - 1)
  else v mod 2 ^ bit_width T.

(** [sizeof(_T)] as a number of bytes. *)
Definition byte_count (T : int_type) : nat := Z.to_nat (sizeof T).

(** The object representation of a [T] value read as an unsigned number. *)
Definition bit_pattern (T : int_type) (v : Z) : Z := v mod 2 ^ bit_width T.

(** ** Byte-reversal primitives (lines 28-104) *)

(** [return ((v & 0xff) << 8) | ((v & 0xff00) >> 8);]
    The operand is promoted to [int], where nothing overflows; the [int]
    result is converted to the [uint16_t] return type. *)
Definition _generic_swap16 (v : Z) : Z :=
  convert uint16_t
    (Z.lor (Z.shiftl (Z.land v 0xff) 8) (Z.shiftr (Z.land v 0xff00) 8)).

(** The loop shared by the 32- and 64-bit primitives,
    [for (i = 0; i < n; i++) { ret = (ret << 8) | (tmp & 0xff); tmp >>= 8; }],
    on unsigned variables of type [T]: the left shift wraps around. *)
Fixpoint swap_loop (T : int_type) (n : nat) (ret tmp : Z) : Z :=
  match n with
  | O => ret
  | S n' =>
      swap_loop T n'
        (Z.lor (convert T (Z.shiftl ret 8)) (Z.land tmp 0xff))
        (Z.shiftr tmp 8)
  end.

(** [uint32_t ret = 0, tmp = v; for (int i = 0; i < 4; i++) ...; return ret;] *)
Definition _generic_swap32 (v : Z) : Z := swap_loop uint32_t 4 0 v.

(** [uint64_t ret = 0, tmp = v; for (int i = 0; i < 8; i++) ...; return ret;] *)
Definition _generic_swap64 (v : Z) : Z := swap_loop uint64_t 8 0 v.

(** The [__ARM_ARCH >= 7] branch of the 64-bit primitive, over whatever the
    32-bit primitive of that build is:
    [vlow = _generic_swap32(v & 0xffffffff); vhigh = _generic_swap32(v >> 32);
     ret = ((uint64_t)vlow << 32) | vhigh;] *)
Definition _generic_swap64_armv7 (swap32 : Z -> Z) (v : Z) : Z :=
  let vlow := convert uint32_t (swap32 (convert uint32_t (Z.land v 0xffffffff))) in
  let vhigh := convert uint32_t (swap32 (convert uint32_t (Z.shiftr v 32))) in
  Z.lor (convert uint64_t (Z.shiftl vlow 32)) vhigh.

(** ** Byte sequences

    What the specification calls the byte sequence of a value: the base-256
    digits of a bit pattern, least significant first or most significant
    first. *)

Definition is_byte (b : Z) : Prop := 0 <= b < 256.

Fixpoint le_bytes (n : nat) (x : Z) : list Z :=
  match n with
  | O => []
  | S n' => x mod 256 :: le_bytes n' (x / 256)
  end.

Definition be_bytes (n : nat) (x : Z) : list Z := rev (le_bytes n x).

Fixpoint of_le_bytes (l : list Z) : Z :=
  match l with
  | [] => 0
  | b :: l' => b + 256 * of_le_bytes l'
  end.

(** The reversal of the specification, section 4.1: byte 0 <-> byte N-1,
    byte 1 <-> byte N-2, ... of an [n]-byte pattern. *)
Definition reverse (n : nat) (x : Z) : Z := of_le_bytes (rev (le_bytes n x)).

(** ** Byte orders *)

Inductive endianness : Set := BigEndian | LittleEndian.

(** The order of the build target: [__BYTE_ORDER__ == __ORDER_LITTLE_ENDIAN__]. *)
Definition host_order (host_little_endian : bool) : endianness :=
  if host_little_endian then LittleEndian else BigEndian.

(** The order a wrapper type commits to: its [_is_big_endian] argument. *)
Definition declared_order (_is_big_endian : bool) : endianness :=
  if _is_big_endian then BigEndian else LittleEndian.

(** The bytes, at increasing addresses, of an [n]-byte scalar object holding
    the bit pattern [x] on the host. *)
Definition object_bytes (host_little_endian : bool) (n : nat) (x : Z) : list Z :=
  match host_order host_little_endian with
  | LittleEndian => le_bytes n x
  | BigEndian => be_bytes n x
  end.

(** The bytes of the bit pattern [x] in a buffer of the given order. *)
Definition buffer_bytes (o : endianness) (n : nat) (x : Z) : list Z :=
  match o with
  | LittleEndian => le_bytes n x
  | BigEndian => be_bytes n x
  end.

(** ** [template <typename _T, bool _is_big_endian> class _generic_endian]
    (lines 108-165) *)

Module _generic_endian.

(** The class has the single data member [_T _raw]. *)
Record t (_T : int_type) (_is_big_endian : bool) : Set := Build { _raw : Z }.
Arguments Build {_T _is_big_endian} _.
Arguments _raw {_T _is_big_endian} _.

Section Members.
Variable host_little_endian : bool.
Variable _T : int_type.
Variable _is_big_endian : bool.

(** The conditional expression of lines 116-120 (and 124-128).  Its
    second and third operands have types [uint16_t], [uint32_t],
    [uint64_t] and [int], so each alternative is converted to their
    common type [uint64_t]; the argument [v], of type [_T], is converted
    to the parameter type of the primitive that is called. *)
Definition swap_by_size (v : Z) : Z :=
  if sizeof _T =? 2 then
    convert uint64_t (_generic_swap16 (convert uint16_t v))
  else if sizeof _T =? 4 then
    convert uint64_t (_generic_swap32 (convert uint32_t v))
  else if sizeof _T =? 8 then
    _generic_swap64 (convert uint64_t v)
  else
    convert uint64_t 0.

(** [_T byte_order(const _T v)]; the assignment to [ret] converts the
    [uint64_t] back to [_T]. *)
Definition byte_order (v : Z) : Z :=
  let ret := v in
  if host_little_endian then
    if _is_big_endian then convert _T (swap_by_size v) else ret
  else
    if negb _is_big_endian then convert _T (swap_by_size v) else ret.

(** [_generic_endian() : _raw(0) {}] *)
Definition construct_default : t _T _is_big_endian :=
  Build (convert _T 0).

(** [_generic_endian(const _T &val) : _raw(byte_order(val)) {}] *)
Definition construct (val : Z) : t _T _is_big_endian :=
  Build (byte_order val).

(** [_generic_endian(const _generic_endian &v) { _raw = v._raw; }] *)
Definition construct_copy (v : t _T _is_big_endian) : t _T _is_big_endian :=
  Build (_raw v).

(** [operator=(const _T &v) { _raw = byte_order(v); return *this; }]:
    the object after the assignment. *)
Definition assign (this : t _T _is_big_endian) (v : Z) : t _T _is_big_endian :=
  Build (byte_order v).

(** [operator _T() { return byte_order(_raw); }] *)
Definition read (this : t _T _is_big_endian) : Z :=
  byte_order (_raw this).

(** [_T raw() const { return _raw; }] *)
Definition raw (this : t _T _is_big_endian) : Z := _raw this.
End Members.

Arguments construct_copy {_T _is_big_endian} v.
Arguments assign host_little_endian {_T _is_big_endian} this v.
Arguments read host_little_endian {_T _is_big_endian} this.
Arguments raw {_T _is_big_endian} this.

End _generic_endian.

(** ** [template <bool _is_big_endian> class _generic_float] (lines 184-225)

    A [float] is modelled by its 32-bit pattern.  [byte_order] declares the
    unions [val] and [ret] without initialising them; [ret_uninit] stands for
    the indeterminate contents of [ret.i] at that point. *)

Module _generic_float.

Record t (_is_big_endian : bool) : Set := Build { _raw : Z }.
Arguments Build {_is_big_endian} _.
Arguments _raw {_is_big_endian} _.

Section Members.
Variable host_little_endian : bool.
Variable _is_big_endian : bool.

(** [val.f = v; if (...) ret.i = _generic_swap32(val.i);
     val.i = ret.i; return val.f;] *)
Definition byte_order (ret_uninit : Z) (v : Z) : Z :=
  let val_i := v in
  let ret_i :=
    if host_little_endian then
      if _is_big_endian then _generic_swap32 val_i else ret_uninit
    else
      if negb _is_big_endian then _generic_swap32 val_i else ret_uninit in
  let val_i := ret_i in
  val_i.

(** [_generic_float() { float f = 0.0; _raw = byte_order(f); }];
    the bit pattern of [0.0f] is [0]. *)
Definition construct_default (ret_uninit : Z) : t _is_big_endian :=
  let f := 0 in
  Build (byte_order ret_uninit f).

(** [_generic_float(const float &val) : _raw(byte_order(val)) {}] *)
Definition construct (ret_uninit : Z) (val : Z) : t _is_big_endian :=
  Build (byte_order ret_uninit val).

(** [_generic_float(const _generic_float &v) { _raw = v._raw; }] *)
Definition construct_copy (v : t _is_big_endian) : t _is_big_endian :=
  Build (_raw v).

(** [operator=(const float &v) { _raw = byte_order(v); return *this; }] *)
Definition assign (ret_uninit : Z) (this : t _is_big_endian) (v : Z)
  : t _is_big_endian :=
  Build (byte_order ret_uninit v).

(** [operator float() { return byte_order(_raw); }] *)
Definition read (ret_uninit : Z) (this : t _is_big_endian) : Z :=
  byte_order ret_uninit (_raw this).

(** [float raw() { return _raw; }] *)
Definition raw (this : t _is_big_endian) : Z := _raw this.
End Members.

Arguments construct_copy {_is_big_endian} v.
Arguments assign host_little_endian {_is_big_endian} ret_uninit this v.
Arguments read host_little_endian {_is_big_endian} ret_uninit this.
Arguments raw {_is_big_endian} this.

End _generic_float.

(** ** [template <bool _is_big_endian> class _generic_double] (lines 232-273)

    A [double] is modelled by its 64-bit pattern. *)

Module _generic_double.

Record t (_is_big_endian : bool) : Set := Build { _raw : Z }.
Arguments Build {_is_big_endian} _.
Arguments _raw {_is_big_endian} _.

Section Members.
Variable host_little_endian : bool.
Variable _is_big_endian : bool.

(** [val.f = v; if (...) ret.i = _generic_swap64(val.i); return val.f;]
    The swapped pattern is computed into [ret.i], which is never read. *)
Definition byte_order (ret_uninit : Z) (v : Z) : Z :=
  let val_i := v in
  let ret_i :=
    if host_little_endian then
      if _is_big_endian then _generic_swap64 val_i else ret_uninit
    else
      if negb _is_big_endian then _generic_swap64 val_i else ret_uninit in
  val_i.

(** [_generic_double() { double f = 0.0; _raw = byte_order(f); }] *)
Definition construct_default (ret_uninit : Z) : t _is_big_endian :=
  let f := 0 in
  Build (byte_order ret_uninit f).

(** [_generic_double(const double &val) : _raw(byte_order(val)) {}] *)
Definition construct (ret_uninit : Z) (val : Z) : t _is_big_endian :=
  Build (byte_order ret_uninit val).

(** [_generic_double(const _generic_double &v) { _raw = v._raw; }] *)
Definition construct_copy (v : t _is_big_endian) : t _is_big_endian :=
  Build (_raw v).

(** [operator=(const double &v) { _raw = byte_order(v); return *this; }] *)
Definition assign (ret_uninit : Z) (this : t _is_big_endian) (v : Z)
  : t _is_big_endian :=
  Build (byte_order ret_uninit v).

(** [operator double() { return byte_order(_raw); }] *)
Definition read (ret_uninit : Z) (this : t _is_big_endian) : Z :=
  byte_order ret_uninit (_raw this).

(** [double raw() { return _raw; }] *)
Definition raw (this : t _is_big_endian) : Z := _raw this.
End Members.

Arguments construct_copy {_is_big_endian} v.
Arguments assign host_little_endian {_is_big_endian} ret_uninit this v.
Arguments read host_little_endian {_is_big_endian} ret_uninit this.
Arguments raw {_is_big_endian} this.

End _generic_double.

(** ** The typedef table (lines 15-18, 167-180, 227-228, 275-276) *)

(** What a typedef name of the header stands for. *)
Inductive scalar_type : Set :=
| Native (T : int_type)
| GenericEndian (T : int_type) (_is_big_endian : bool)
| GenericFloat (_is_big_endian : bool)
| GenericDouble (_is_big_endian : bool).

Inductive type_name : Set :=
| int8_be | uint8_be | int8_le | uint8_le
| int16_be | int16_le | uint16_be | uint16_le
| int32_be | int32_le | uint32_be | uint32_le
| int64_be | int64_le | uint64_be | uint64_le
| float_be | float_le
| double_be | double_le.

Definition typedef (n : type_name) : scalar_type :=
  match n with
  | int8_be => Native int8_t
  | uint8_be => Native uint8_t
  | int8_le => Native int8_t
  | uint8_le => Native uint8_t
  | int16_be => GenericEndian int16_t true
  | int16_le => GenericEndian int16_t false
  | uint16_be => GenericEndian uint16_t true
  | uint16_le => GenericEndian uint16_t false
  | int32_be => GenericEndian int32_t true
  | int32_le => GenericEndian int32_t false
  | uint32_be => GenericEndian uint32_t true
  | uint32_le => GenericEndian uint32_t false
  | int64_be => GenericEndian int64_t true
  | int64_le => GenericEndian int64_t false
  | uint64_be => GenericEndian uint64_t true
  | uint64_le => GenericEndian uint64_t false
  | float_be => GenericFloat true
  | float_le => GenericFloat false
  | double_be => GenericDouble true
  | double_le => GenericDouble false
  end.

(** The byte order a typedef name announces by its suffix. *)
Definition name_order (n : type_name) : endianness :=
  match n with
  | int8_be | uint8_be | int16_be | uint16_be | int32_be | uint32_be
  | int64_be | uint64_be | float_be | double_be => BigEndian
  | _ => LittleEndian
  end.

(** The operations a user of a typedef name has, whatever it stands for.
    [stored_by_init], the stored bits of [x] after [name x = v;] (or, for an
    existing [x], after [x = v;]); [value_read], the host value obtained from
    an object with the given stored bits.  For a native type both are plain
    scalar copies. *)
Definition stored_by_init (host_little_endian : bool) (ty : scalar_type)
  (ret_uninit v : Z) : Z :=
  match ty with
  | Native _ => v
  | GenericEndian T b =>
      _generic_endian.raw (_generic_endian.construct host_little_endian T b v)
  | GenericFloat b =>
      _generic_float.raw (_generic_float.construct host_little_endian b ret_uninit v)
  | GenericDouble b =>
      _generic_double.raw (_generic_double.construct host_little_endian b ret_uninit v)
  end.

Definition stored_by_assign (host_little_endian : bool) (ty : scalar_type)
  (ret_uninit old v : Z) : Z :=
  match ty with
  | Native _ => v
  | GenericEndian T b =>
      _generic_endian.raw
        (_generic_endian.assign host_little_endian
           (@_generic_endian.Build T b old) v)
  | GenericFloat b =>
      _generic_float.raw
        (_generic_float.assign host_little_endian ret_uninit
           (@_generic_float.Build b old) v)
  | GenericDouble b =>
      _generic_double.raw
        (_generic_double.assign host_little_endian ret_uninit
           (@_generic_double.Build b old) v)
  end.

Definition value_read (host_little_endian : bool) (ty : scalar_type)
  (ret_uninit stored : Z) : Z :=
  match ty with
  | Native _ => stored
  | GenericEndian T b =>
      _generic_endian.read host_little_endian (@_generic_endian.Build T b stored)
  | GenericFloat b =>
      _generic_float.read host_little_endian ret_uninit (@_generic_float.Build b stored)
  | GenericDouble b =>
      _generic_double.read host_little_endian ret_uninit (@_generic_double.Build b stored)
  end.

(** ** Scalars read from bytes *)

(** The bit pattern of the scalar object whose bytes, at increasing
    addresses, are [p] on the host. *)
Definition of_object_bytes (host_little_endian : bool) (p : list Z) : Z :=
  match host_order host_little_endian with
  | LittleEndian => of_le_bytes p
  | BigEndian => of_le_bytes (rev p)
  end.

(** The bit pattern a buffer of the given order holds in the bytes [p]. *)
Definition of_buffer_bytes (o : endianness) (p : list Z) : Z :=
  match o with
  | LittleEndian => of_le_bytes p
  | BigEndian => of_le_bytes (rev p)
  end.

(** ** The unrolled primitives (lines 34-39, 52-60, 80-94)

    The branches selected by [__UNROLLED_SWAP__] on ARM targets before ARMv6
    exchange the bytes of the argument in place through
    [uint8_t *p = reinterpret_cast<uint8_t *> & v], read here as a pointer to
    the first byte of [v], and return [v]. *)






(** * Properties *)

(** ** Conversions between integer types *)

Lemma bit_width_pos T : 0 < bit_width T.
Proof. destruct T; reflexivity. Qed.

Lemma convert_unsigned T v :
  is_signed T = false -> convert T v = v mod 2 ^ bit_width T.
Proof. unfold convert; intros ->; reflexivity. Qed.

Lemma convert_unsigned_small T v :
  is_signed T = false -> 0 <= v < 2 ^ bit_width T -> convert T v = v.
Proof.
  intros Hs Hv. rewrite convert_unsigned by assumption.
  now apply Z.mod_small.
Qed.

Lemma pow2_split w : 0 < w -> 2 ^ w = 2 * 2 ^ (w - 1).
Proof.
  intros Hw. replace w with (Z.succ (w - 1)) at 1 by lia.
  rewrite Z.pow_succ_r by lia. reflexivity.
Qed.

Lemma convert_representable T v : representable T v -> convert T v = v.
Proof.
  unfold representable, convert. pose proof (bit_width_pos T) as Hw.
  pose proof (pow2_split _ Hw) as H2.
  destruct (is_signed T); intros Hv.
  - rewrite Z.mod_small by lia. lia.
  - now apply Z.mod_small.
Qed.

Lemma bit_pattern_convert T v : bit_pattern T (convert T v) = bit_pattern T v.
Proof.
  unfold bit_pattern, convert. destruct (is_signed T).
  - rewrite Zminus_mod_idemp_l. f_equal. lia.
  - apply Z.mod_mod. pose proof (bit_width_pos T).
    apply Z.pow_nonzero; lia.
Qed.

Lemma convert_bit_pattern T v : convert T (bit_pattern T v) = convert T v.
Proof.
  unfold bit_pattern, convert. destruct (is_signed T).
  - now rewrite Zplus_mod_idemp_l.
  - apply Z.mod_mod. pose proof (bit_width_pos T).
    apply Z.pow_nonzero; lia.
Qed.

Lemma bit_pattern_range T v : 0 <= bit_pattern T v < 2 ^ bit_width T.
Proof.
  apply Z.mod_pos_bound. pose proof (bit_width_pos T).
  apply Z.pow_pos_nonneg; lia.
Qed.

Lemma convert_is_representable T v : representable T (convert T v).
Proof.
  unfold representable, convert. pose proof (bit_width_pos T) as Hw.
  pose proof (pow2_split _ Hw) as H2.
  assert (0 < 2 ^ bit_width T) as Hp by (apply Z.pow_pos_nonneg; lia).
  destruct (is_signed T).
  - pose proof (Z.mod_pos_bound (v + 2 ^ (bit_width T - 1)) _ Hp). lia.
  - now apply Z.mod_pos_bound.
Qed.

(** ** Byte sequences *)

Lemma le_bytes_length n x : length (le_bytes n x) = n.
Proof. revert x; induction n; intros; simpl; auto. Qed.

Lemma le_bytes_is_byte n x : Forall is_byte (le_bytes n x).
Proof.
  revert x; induction n; intros; simpl; constructor; auto.
  apply Z.mod_pos_bound; lia.
Qed.

Lemma of_le_bytes_app l1 l2 :
  of_le_bytes (l1 ++ l2) =
  of_le_bytes l1 + 256 ^ Z.of_nat (length l1) * of_le_bytes l2.
Proof.
  induction l1 as [|b l1 IH]; cbn [length app of_le_bytes].
  - rewrite Z.pow_0_r; lia.
  - rewrite IH, Nat2Z.inj_succ, Z.pow_succ_r by lia. ring.
Qed.

Lemma of_le_bytes_range l :
  Forall is_byte l -> 0 <= of_le_bytes l < 256 ^ Z.of_nat (length l).
Proof.
  induction 1 as [|b l Hb _ IH]; cbn [length of_le_bytes].
  - rewrite Z.pow_0_r; lia.
  - rewrite Nat2Z.inj_succ, Z.pow_succ_r by lia. unfold is_byte in Hb. lia.
Qed.

Lemma of_le_bytes_le_bytes n x :
  of_le_bytes (le_bytes n x) = x mod 256 ^ Z.of_nat n.
Proof.
  revert x; induction n as [|n IH]; intros x.
  - cbn [le_bytes of_le_bytes Z.of_nat]. now rewrite Z.pow_0_r, Z.mod_1_r.
  - cbn [le_bytes of_le_bytes]. rewrite IH, Nat2Z.inj_succ, Z.pow_succ_r by lia.
    assert (0 < 256 ^ Z.of_nat n) by (apply Z.pow_pos_nonneg; lia).
    rewrite Z.rem_mul_r by lia. reflexivity.
Qed.

Lemma le_bytes_of_le_bytes l :
  Forall is_byte l -> le_bytes (length l) (of_le_bytes l) = l.
Proof.
  induction 1 as [|b l Hb _ IH]; cbn [length le_bytes of_le_bytes].
  - reflexivity.
  - unfold is_byte in Hb.
    replace (b + 256 * of_le_bytes l) with (b + of_le_bytes l * 256) by ring.
    f_equal.
    + rewrite Z.mod_add by lia. apply Z.mod_small; lia.
    + rewrite Z.div_add, Z.div_small by lia. exact IH.
Qed.

Lemma le_bytes_mod n x : le_bytes n (x mod 256 ^ Z.of_nat n) = le_bytes n x.
Proof.
  rewrite <- of_le_bytes_le_bytes.
  rewrite <- (le_bytes_length n x) at 1.
  apply le_bytes_of_le_bytes, le_bytes_is_byte.
Qed.

(** ** The specification's reversal *)

Lemma reverse_range n x : 0 <= reverse n x < 256 ^ Z.of_nat n.
Proof.
  unfold reverse.
  pose proof (of_le_bytes_range (rev (le_bytes n x))) as H.
  rewrite length_rev, le_bytes_length in H. apply H.
  apply Forall_rev, le_bytes_is_byte.
Qed.

Lemma le_bytes_reverse n x : le_bytes n (reverse n x) = rev (le_bytes n x).
Proof.
  unfold reverse.
  rewrite <- (le_bytes_length n x) at 1. rewrite <- length_rev.
  apply le_bytes_of_le_bytes, Forall_rev, le_bytes_is_byte.
Qed.

Lemma reverse_reverse n x : reverse n (reverse n x) = x mod 256 ^ Z.of_nat n.
Proof.
  unfold reverse at 1. rewrite le_bytes_reverse, rev_involutive.
  apply of_le_bytes_le_bytes.
Qed.

Lemma reverse_mod n x : reverse n (x mod 256 ^ Z.of_nat n) = reverse n x.
Proof. unfold reverse. now rewrite le_bytes_mod. Qed.

(** ** The primitives compute the reversal *)

Example generic_swap16_0x1234 : _generic_swap16 0x1234 = 0x3412.
Proof. reflexivity. Qed.

Example generic_swap32_0x3F800000 : _generic_swap32 0x3F800000 = 0x0000803F.
Proof. reflexivity. Qed.

Example generic_swap64_0x0102030405060708 :
  _generic_swap64 0x0102030405060708 = 0x0807060504030201.
Proof. reflexivity. Qed.

Lemma land_0xff x : Z.land x 0xff = x mod 256.
Proof. change 0xff with (Z.ones 8). now rewrite Z.land_ones by lia. Qed.

Lemma shiftr_8 x : Z.shiftr x 8 = x / 256.
Proof. now rewrite Z.shiftr_div_pow2 by lia. Qed.

Lemma shiftl_8 x : Z.shiftl x 8 = x * 256.
Proof. now rewrite Z.shiftl_mul_pow2 by lia. Qed.

Lemma lor_append_byte a b : is_byte b -> Z.lor (a * 256) b = a * 256 + b.
Proof.
  intros Hb.
  assert (Z.land (a * 256) b = 0) as Hdisjoint.
  { apply Z.bits_inj'; intros i Hi. rewrite Z.land_spec, Z.bits_0.
    destruct (Z.ltb_spec i 8).
    - change 256 with (2 ^ 8). now rewrite Z.mul_pow2_bits_low by lia.
    - replace b with (b mod 2 ^ 8) by (apply Z.mod_small; exact Hb).
      rewrite Z.mod_pow2_bits_high by lia. apply andb_false_r. }
  rewrite <- Z.lxor_lor by assumption.
  symmetry. now apply Z.add_nocarry_lxor.
Qed.

Lemma pow256 k : 256 ^ Z.of_nat k = 2 ^ (8 * Z.of_nat k).
Proof. rewrite Z.pow_mul_r by lia. reflexivity. Qed.

Lemma reverse_succ n x :
  reverse (S n) x = reverse n (x / 256) + 256 ^ Z.of_nat n * (x mod 256).
Proof.
  unfold reverse. cbn [le_bytes rev].
  rewrite of_le_bytes_app, length_rev, le_bytes_length.
  cbn [of_le_bytes]. ring.
Qed.

(** The loop invariant: after [k] of [k + n] iterations [ret] holds the [k]
    bytes consumed so far, and the shift cannot overflow the variable. *)
Lemma swap_loop_reverse T n :
  is_signed T = false ->
  forall k ret tmp,
    0 <= ret < 256 ^ Z.of_nat k ->
    8 * Z.of_nat (k + n) <= bit_width T ->
    swap_loop T n ret tmp = ret * 256 ^ Z.of_nat n + reverse n tmp.
Proof.
  intros Hu. induction n as [|n IH]; intros k ret tmp Hret Hk.
  - cbn [swap_loop]. unfold reverse. cbn. lia.
  - cbn [swap_loop].
    assert (256 ^ Z.of_nat (S k) <= 2 ^ bit_width T) as Hfit.
    { rewrite pow256. apply Z.pow_le_mono_r; lia. }
    rewrite Nat2Z.inj_succ, Z.pow_succ_r in Hfit by lia.
    rewrite shiftl_8, land_0xff, shiftr_8.
    rewrite convert_unsigned_small by (auto; lia).
    assert (is_byte (tmp mod 256)) as Hb by (apply Z.mod_pos_bound; lia).
    rewrite lor_append_byte by assumption.
    rewrite (IH (S k)).
    + rewrite reverse_succ, Nat2Z.inj_succ, Z.pow_succ_r by lia. ring.
    + rewrite Nat2Z.inj_succ, Z.pow_succ_r by lia. unfold is_byte in Hb. lia.
    + lia.
Qed.

Lemma generic_swap32_reverse v : _generic_swap32 v = reverse 4 v.
Proof.
  unfold _generic_swap32.
  rewrite (swap_loop_reverse uint32_t 4 eq_refl 0); cbn; lia.
Qed.

Lemma generic_swap64_reverse v : _generic_swap64 v = reverse 8 v.
Proof.
  unfold _generic_swap64.
  rewrite (swap_loop_reverse uint64_t 8 eq_refl 0); cbn; lia.
Qed.

Lemma generic_swap16_reverse v : _generic_swap16 v = reverse 2 v.
Proof.
  unfold _generic_swap16.
  rewrite Z.shiftr_land, land_0xff, shiftl_8, shiftr_8.
  change (Z.shiftr 0xff00 8) with 0xff. rewrite land_0xff.
  assert (is_byte (v mod 256)) as Hlo by (apply Z.mod_pos_bound; lia).
  assert (is_byte (v / 256 mod 256)) as Hhi by (apply Z.mod_pos_bound; lia).
  rewrite lor_append_byte by assumption.
  unfold is_byte in Hlo, Hhi.
  rewrite convert_unsigned_small by (auto; cbn; lia).
  unfold reverse. cbn [le_bytes rev app of_le_bytes]. ring.
Qed.

(** ** The ARMv7 formulation of the 64-bit primitive *)

Lemma lor_append_word a b :
  0 <= b < 2 ^ 32 -> Z.lor (a * 2 ^ 32) b = a * 2 ^ 32 + b.
Proof.
  intros Hb.
  assert (Z.land (a * 2 ^ 32) b = 0) as Hdisjoint.
  { apply Z.bits_inj'; intros i Hi. rewrite Z.land_spec, Z.bits_0.
    destruct (Z.ltb_spec i 32).
    - now rewrite Z.mul_pow2_bits_low by lia.
    - replace b with (b mod 2 ^ 32) by (apply Z.mod_small; exact Hb).
      rewrite Z.mod_pow2_bits_high by lia. apply andb_false_r. }
  rewrite <- Z.lxor_lor by assumption.
  symmetry. now apply Z.add_nocarry_lxor.
Qed.

Lemma le_bytes_app n m x :
  le_bytes (n + m) x = le_bytes n x ++ le_bytes m (x / 256 ^ Z.of_nat n).
Proof.
  revert x; induction n as [|n IH]; intros x.
  - cbn [Nat.add le_bytes app Z.of_nat]. now rewrite Z.pow_0_r, Z.div_1_r.
  - cbn [Nat.add le_bytes app]. rewrite IH. do 2 f_equal.
    rewrite Nat2Z.inj_succ, Z.pow_succ_r by lia.
    rewrite Z.div_div by (try apply Z.pow_pos_nonneg; lia). reflexivity.
Qed.

Lemma reverse_8_split v :
  reverse 8 v = reverse 4 (v / 2 ^ 32) + 2 ^ 32 * reverse 4 v.
Proof.
  unfold reverse. change 8%nat with (4 + 4)%nat.
  rewrite le_bytes_app, rev_app_distr, of_le_bytes_app.
  rewrite length_rev, le_bytes_length. reflexivity.
Qed.

Section ArmV7.

(** The 32-bit primitive of the build, known only to reverse the four bytes
    of every 32-bit pattern. *)
Variable swap32 : Z -> Z.
Hypothesis swap32_reverse :
  forall x, 0 <= x < 2 ^ 32 -> swap32 x = reverse 4 x.

Lemma generic_swap64_armv7_reverse v :
  _generic_swap64_armv7 swap32 v = reverse 8 v.
Proof.
  unfold _generic_swap64_armv7.
  change 0xffffffff with (Z.ones 32). rewrite Z.land_ones by lia.
  rewrite Z.shiftr_div_pow2, Z.shiftl_mul_pow2 by lia.
  rewrite !(convert_unsigned uint32_t) by reflexivity.
  change (2 ^ bit_width uint32_t) with (2 ^ 32).
  rewrite Z.mod_mod by lia.
  rewrite !swap32_reverse by (apply Z.mod_pos_bound; lia).
  change (2 ^ 32) with (256 ^ Z.of_nat 4). rewrite !reverse_mod.
  pose proof (reverse_range 4 v) as Hlo.
  pose proof (reverse_range 4 (v / 256 ^ Z.of_nat 4)) as Hhi.
  rewrite !Z.mod_small by assumption.
  change (256 ^ Z.of_nat 4) with (2 ^ 32) in *.
  rewrite convert_unsigned_small.
  2: reflexivity.
  2: { change (2 ^ bit_width uint64_t) with (2 ^ 32 * 2 ^ 32). nia. }
  rewrite lor_append_word by assumption.
  rewrite reverse_8_split. ring.
Qed.

Lemma generic_swap64_armv7_self_inverse v :
  0 <= v < 2 ^ 64 ->
  _generic_swap64_armv7 swap32 (_generic_swap64_armv7 swap32 v) = v.
Proof.
  intros Hv. rewrite !generic_swap64_armv7_reverse, reverse_reverse.
  now apply Z.mod_small.
Qed.

End ArmV7.

(** Built over the portable 32-bit primitive it is the portable 64-bit one. *)
Lemma generic_swap64_armv7_portable v :
  _generic_swap64_armv7 _generic_swap32 v = _generic_swap64 v.
Proof.
  rewrite generic_swap64_reverse.
  apply generic_swap64_armv7_reverse.
  intros x _. apply generic_swap32_reverse.
Qed.

(** ** The integer wrapper's conversion routine *)

Lemma byte_count_width T : 256 ^ Z.of_nat (byte_count T) = 2 ^ bit_width T.
Proof. destruct T; reflexivity. Qed.

Lemma bit_pattern_reverse T x :
  bit_pattern T (reverse (byte_count T) x) = reverse (byte_count T) x.
Proof.
  unfold bit_pattern. apply Z.mod_small.
  rewrite <- byte_count_width. apply reverse_range.
Qed.

Lemma convert_uint64_reverse n x :
  (n <= 8)%nat -> convert uint64_t (reverse n x) = reverse n x.
Proof.
  intros Hn. apply convert_unsigned_small; [reflexivity|].
  pose proof (reverse_range n x) as H.
  assert (256 ^ Z.of_nat n <= 2 ^ bit_width uint64_t).
  { rewrite pow256. change (bit_width uint64_t) with 64.
    apply Z.pow_le_mono_r; lia. }
  lia.
Qed.

(** For the three widths the typedefs instantiate, the selected primitive
    reverses the bytes of the argument's bit pattern. *)
Lemma swap_by_size_reverse T v :
  In (bit_width T) [16; 32; 64] ->
  _generic_endian.swap_by_size T v = reverse (byte_count T) (bit_pattern T v).
Proof.
  intros HT. unfold _generic_endian.swap_by_size.
  destruct T; cbn in HT; try lia; cbn [sizeof Z.eqb Pos.eqb];
    rewrite ?generic_swap16_reverse, ?generic_swap32_reverse,
      ?generic_swap64_reverse, ?convert_uint64_reverse by (cbn; lia);
    reflexivity.
Qed.

Lemma byte_order_mismatch host T big v :
  In (bit_width T) [16; 32; 64] ->
  declared_order big <> host_order host ->
  _generic_endian.byte_order host T big v =
  convert T (reverse (byte_count T) (bit_pattern T v)).
Proof.
  intros HT Hne. unfold _generic_endian.byte_order.
  rewrite swap_by_size_reverse by assumption.
  destruct host, big; cbn in Hne; try congruence; reflexivity.
Qed.

Lemma byte_order_match host T big v :
  declared_order big = host_order host ->
  _generic_endian.byte_order host T big v = v.
Proof.
  intros He. unfold _generic_endian.byte_order.
  destruct host, big; cbn in He; try discriminate; reflexivity.
Qed.

(** Applying the conversion routine twice gives the value back. *)
Lemma byte_order_twice host T big v :
  In (bit_width T) [16; 32; 64] ->
  representable T v ->
  _generic_endian.byte_order host T big
    (_generic_endian.byte_order host T big v) = v.
Proof.
  intros HT Hv.
  assert ({declared_order big = host_order host} +
          {declared_order big <> host_order host}) as [He|Hne]
    by (destruct big, host; cbn; (left; reflexivity) || (right; discriminate)).
  - now rewrite !byte_order_match.
  - rewrite !byte_order_mismatch by assumption.
    rewrite bit_pattern_convert, bit_pattern_reverse, reverse_reverse.
    rewrite byte_count_width, Z.mod_small by apply bit_pattern_range.
    rewrite convert_bit_pattern. now apply convert_representable.
Qed.

Lemma orders_agree_dec host big :
  {declared_order big = host_order host} +
  {declared_order big <> host_order host}.
Proof. destruct big, host; cbn; (left; reflexivity) || (right; discriminate). Qed.

(** The stored bit pattern of the integer wrapper laid out in host memory is
    the byte sequence of the value in the declared order. *)
Lemma generic_endian_stores_declared_order host T big v :
  In (bit_width T) [16; 32; 64] ->
  object_bytes host (byte_count T)
    (bit_pattern T (_generic_endian.raw (_generic_endian.construct host T big v))) =
  buffer_bytes (declared_order big) (byte_count T) (bit_pattern T v).
Proof.
  intros HT. unfold _generic_endian.raw, _generic_endian.construct.
  cbn [_generic_endian._raw].
  destruct (orders_agree_dec host big) as [He|Hne].
  - rewrite byte_order_match by assumption.
    unfold object_bytes. now rewrite <- He.
  - rewrite byte_order_mismatch by assumption.
    rewrite bit_pattern_convert, bit_pattern_reverse.
    unfold object_bytes, buffer_bytes, be_bytes.
    rewrite le_bytes_reverse, rev_involutive.
    destruct host, big; cbn in Hne |- *; congruence.
Qed.

(** The 16-bit example of the specification: [uint16_be] holding [0x1234] on
    a little-endian host occupies the bytes [12 34]. *)
Example uint16_be_0x1234 :
  let w := _generic_endian.construct true uint16_t true 0x1234 in
  object_bytes true 2 (_generic_endian.raw w) = [0x12; 0x34] /\
  _generic_endian.read true w = 0x1234.
Proof. split; reflexivity. Qed.

(** Instantiated at a one-byte type with a declared order that differs from
    the host's, the template would select the [: 0] alternative and lose the
    value; the header never instantiates it there. *)
Remark generic_endian_one_byte_loses_value :
  _generic_endian.read true (_generic_endian.construct true uint8_t true 0x12) = 0.
Proof. reflexivity. Qed.

(** The stored value of the integer wrapper is always a value of [_T]. *)
Lemma generic_endian_raw_representable host T big v :
  In (bit_width T) [16; 32; 64] ->
  representable T v ->
  representable T (_generic_endian.raw (_generic_endian.construct host T big v)).
Proof.
  intros HT Hv. unfold _generic_endian.raw, _generic_endian.construct.
  cbn [_generic_endian._raw].
  destruct (orders_agree_dec host big) as [He|Hne].
  - now rewrite byte_order_match.
  - rewrite byte_order_mismatch by assumption. apply convert_is_representable.
Qed.

(** Assignment stores what construction stores, in the three classes. *)
Lemma assign_stores_like_construct host :
  (forall T b (w : _generic_endian.t T b) v,
      _generic_endian.assign host w v = _generic_endian.construct host T b v) /\
  (forall b u (w : _generic_float.t b) v,
      _generic_float.assign host u w v = _generic_float.construct host b u v) /\
  (forall b u (w : _generic_double.t b) v,
      _generic_double.assign host u w v = _generic_double.construct host b u v).
Proof. repeat split. Qed.

(** Every wrapper typedef instantiates its class with the order its name
    announces. *)
Lemma typedef_declares_named_order n :
  match typedef n with
  | Native _ => True
  | GenericEndian _ b | GenericFloat b | GenericDouble b =>
      declared_order b = name_order n
  end.
Proof. destruct n; cbn; trivial. Qed.

(** ** The float and double wrappers' conversion routines *)

Lemma float_byte_order_mismatch host big u v :
  declared_order big <> host_order host ->
  _generic_float.byte_order host big u v = reverse 4 v.
Proof.
  intros Hne. unfold _generic_float.byte_order.
  rewrite generic_swap32_reverse.
  destruct host, big; cbn in Hne; try congruence; reflexivity.
Qed.

(** When the declared order is the host's, [ret.i] is never written and the
    routine hands back its indeterminate contents. *)
Lemma float_byte_order_match host big u v :
  declared_order big = host_order host ->
  _generic_float.byte_order host big u v = u.
Proof.
  intros He. unfold _generic_float.byte_order.
  destruct host, big; cbn in He; try discriminate; reflexivity.
Qed.

Lemma float_round_trip_mismatch host big u1 u2 v :
  declared_order big <> host_order host ->
  0 <= v < 2 ^ 32 ->
  _generic_float.read host u2 (_generic_float.construct host big u1 v) = v.
Proof.
  intros Hne Hv. unfold _generic_float.read, _generic_float.construct.
  cbn [_generic_float._raw].
  rewrite !float_byte_order_mismatch by assumption.
  rewrite reverse_reverse. now apply Z.mod_small.
Qed.

Lemma float_stores_declared_order_mismatch host big u v :
  declared_order big <> host_order host ->
  object_bytes host 4 (_generic_float.raw (_generic_float.construct host big u v)) =
  buffer_bytes (declared_order big) 4 v.
Proof.
  intros Hne. unfold _generic_float.raw, _generic_float.construct.
  cbn [_generic_float._raw].
  rewrite float_byte_order_mismatch by assumption.
  unfold object_bytes, buffer_bytes, be_bytes.
  rewrite le_bytes_reverse, rev_involutive.
  destruct host, big; cbn in Hne |- *; congruence.
Qed.


Lemma double_round_trip host big u1 u2 v :
  _generic_double.read host u2 (_generic_double.construct host big u1 v) = v.
Proof. reflexivity. Qed.

(** ** Default construction, class by class *)

Lemma generic_endian_default_zero T big :
  _generic_endian.raw (_generic_endian.construct_default T big) = 0.
Proof. destruct T; reflexivity. Qed.

Lemma generic_double_default_zero host big u :
  _generic_double.raw (_generic_double.construct_default host big u) = 0.
Proof. reflexivity. Qed.

Lemma generic_float_default_zero_mismatch host big u :
  declared_order big <> host_order host ->
  _generic_float.raw (_generic_float.construct_default host big u) = 0.
Proof.
  intros Hne. unfold _generic_float.raw, _generic_float.construct_default.
  cbn [_generic_float._raw].
  now rewrite float_byte_order_mismatch by assumption.
Qed.

(** * The claims *)

(** C1. For every integer width in {16, 32, 64}, both signednesses, both
    declared byte orders (and either host order), reading back a wrapper
    constructed from a host-native integer [v] of the underlying type returns
    [v] exactly, negative two's-complement values included. *)
Theorem integer_round_trip (host_little_endian : bool) (T : int_type)
    (_is_big_endian : bool) (v : Z) :
  In (bit_width T) [16; 32; 64] ->
  representable T v ->
  _generic_endian.read host_little_endian
    (_generic_endian.construct host_little_endian T _is_big_endian v) = v.
Proof.
  intros HT Hv. unfold _generic_endian.read, _generic_endian.construct.
  cbn [_generic_endian._raw]. now apply byte_order_twice.
Qed.

Lemma integer_round_trip_witness :
  In (bit_width int16_t) [16; 32; 64] /\
  representable int16_t (-2) /\
  _generic_endian.read true (_generic_endian.construct true int16_t true (-2)) = -2.
Proof.
  assert (In (bit_width int16_t) [16; 32; 64]) as HT by (cbn; auto).
  assert (representable int16_t (-2)) as Hv by (cbn; lia).
  exact (conj HT (conj Hv (integer_round_trip true int16_t true (-2) HT Hv))).
Defined.

(** C2 (the code departs from it).  The float wrapper whose declared order
    is the host's does not give back what was stored: [float_le] on a
    little-endian host, constructed from [1.0f], reads back the indeterminate
    contents of the uninitialised [ret] of the reading call, for instance the
    pattern [0] rather than [0x3F800000]. *)
Theorem float_le_round_trip_is_indeterminate :
  (forall u1 u2 v : Z,
      _generic_float.read true u2 (_generic_float.construct true false u1 v) = u2) /\
  _generic_float.read true 0 (_generic_float.construct true false 0 0x3F800000)
    <> 0x3F800000.
Proof. split; [reflexivity | discriminate]. Qed.

(** C3 (the code departs from it).  The double wrapper stores the value in
    host order even when the declared order differs: [double_be] on a
    little-endian host, constructed from [1.0] (pattern
    [0x3FF0000000000000]), occupies the bytes [00 00 00 00 00 00 F0 3F],
    whereas a big-endian buffer holds [3F F0 00 00 00 00 00 00]. *)
Theorem double_be_stores_host_order (ret_uninit : Z) :
  object_bytes true 8
    (_generic_double.raw
       (_generic_double.construct true true ret_uninit 0x3FF0000000000000)) =
  [0; 0; 0; 0; 0; 0; 0xF0; 0x3F] /\
  buffer_bytes (declared_order true) 8 0x3FF0000000000000 =
  [0x3F; 0xF0; 0; 0; 0; 0; 0; 0] /\
  object_bytes true 8
    (_generic_double.raw
       (_generic_double.construct true true ret_uninit 0x3FF0000000000000)) <>
  buffer_bytes (declared_order true) 8 0x3FF0000000000000.
Proof. repeat split; try reflexivity. discriminate. Qed.

(** C4. Each byte-reversal primitive is its own inverse on the bit patterns
    of its width. *)
Theorem generic_swap_self_inverse (x16 x32 x64 : Z) :
  0 <= x16 < 2 ^ 16 ->
  0 <= x32 < 2 ^ 32 ->
  0 <= x64 < 2 ^ 64 ->
  _generic_swap16 (_generic_swap16 x16) = x16 /\
  _generic_swap32 (_generic_swap32 x32) = x32 /\
  _generic_swap64 (_generic_swap64 x64) = x64.
Proof.
  intros H16 H32 H64.
  rewrite !generic_swap16_reverse, !generic_swap32_reverse,
    !generic_swap64_reverse, !reverse_reverse.
  repeat split; apply Z.mod_small; assumption.
Qed.

Lemma generic_swap_self_inverse_witness :
  0 <= 0x1234 < 2 ^ 16 /\
  0 <= 0x3F800000 < 2 ^ 32 /\
  0 <= 0xFFF0000000000001 < 2 ^ 64 /\
  _generic_swap16 (_generic_swap16 0x1234) = 0x1234 /\
  _generic_swap32 (_generic_swap32 0x3F800000) = 0x3F800000 /\
  _generic_swap64 (_generic_swap64 0xFFF0000000000001) = 0xFFF0000000000001.
Proof.
  assert (0 <= 0x1234 < 2 ^ 16) as H16 by lia.
  assert (0 <= 0x3F800000 < 2 ^ 32) as H32 by lia.
  assert (0 <= 0xFFF0000000000001 < 2 ^ 64) as H64 by lia.
  exact (conj H16 (conj H32 (conj H64
    (generic_swap_self_inverse 0x1234 0x3F800000 0xFFF0000000000001
       H16 H32 H64)))).
Defined.

(** C5. For every width of the integer wrapper and every value [v], when the
    declared byte order differs from the host byte order the raw stored bits
    after construction are the byte reversal of [v]'s bit pattern. *)
Theorem raw_bits_reversed_when_orders_differ (host_little_endian : bool)
    (T : int_type) (_is_big_endian : bool) (v : Z) :
  In (bit_width T) [16; 32; 64] ->
  declared_order _is_big_endian <> host_order host_little_endian ->
  bit_pattern T
    (_generic_endian.raw
       (_generic_endian.construct host_little_endian T _is_big_endian v)) =
  reverse (byte_count T) (bit_pattern T v).
Proof.
  intros HT Hne. unfold _generic_endian.raw, _generic_endian.construct.
  cbn [_generic_endian._raw].
  rewrite byte_order_mismatch by assumption.
  now rewrite bit_pattern_convert, bit_pattern_reverse.
Qed.

Lemma raw_bits_reversed_when_orders_differ_witness :
  In (bit_width int32_t) [16; 32; 64] /\
  declared_order true <> host_order true /\
  bit_pattern int32_t
    (_generic_endian.raw (_generic_endian.construct true int32_t true (-2))) =
  reverse (byte_count int32_t) (bit_pattern int32_t (-2)).
Proof.
  assert (In (bit_width int32_t) [16; 32; 64]) as HT by (cbn; auto).
  assert (declared_order true <> host_order true) as Hne by (cbn; discriminate).
  exact (conj HT (conj Hne
    (raw_bits_reversed_when_orders_differ true int32_t true (-2) HT Hne))).
Defined.

(** C6. For every width of the integer wrapper and every value [v], when the
    declared byte order equals the host byte order construction stores [v]
    unchanged. *)
Theorem raw_bits_unchanged_when_orders_agree (host_little_endian : bool)
    (T : int_type) (_is_big_endian : bool) (v : Z) :
  declared_order _is_big_endian = host_order host_little_endian ->
  _generic_endian.raw
    (_generic_endian.construct host_little_endian T _is_big_endian v) = v /\
  bit_pattern T
    (_generic_endian.raw
       (_generic_endian.construct host_little_endian T _is_big_endian v)) =
  bit_pattern T v.
Proof.
  intros He. unfold _generic_endian.raw, _generic_endian.construct.
  cbn [_generic_endian._raw].
  rewrite byte_order_match by assumption. split; reflexivity.
Qed.

Lemma raw_bits_unchanged_when_orders_agree_witness :
  declared_order false = host_order true /\
  _generic_endian.raw (_generic_endian.construct true int64_t false (-2)) = -2 /\
  bit_pattern int64_t
    (_generic_endian.raw (_generic_endian.construct true int64_t false (-2))) =
  bit_pattern int64_t (-2).
Proof.
  split; [reflexivity|].
  apply (raw_bits_unchanged_when_orders_agree true int64_t false (-2)).
  reflexivity.
Defined.

(** C7. [float_be] on a little-endian host: constructing from [1.0f] (bit
    pattern [0x3F800000]) stores the bit pattern [0x0000803F], and reading
    the wrapper back returns the pattern of [1.0f]. *)
Theorem float_be_one_on_little_endian_host (u1 u2 : Z) :
  _generic_float.raw (_generic_float.construct true true u1 0x3F800000) =
  0x0000803F /\
  _generic_float.read true u2 (_generic_float.construct true true u1 0x3F800000) =
  0x3F800000.
Proof. split; reflexivity. Qed.

(** C8 (the code departs from it).  Default construction of the float wrapper
    whose declared order is the host's stores the indeterminate contents of
    the uninitialised [ret], not the all-zero pattern: for [float_le] on a
    little-endian host, whatever [ret.i] held, e.g. [0xDEADBEEF]. *)
Theorem float_le_default_is_indeterminate :
  (forall u : Z,
      _generic_float.raw (_generic_float.construct_default true false u) = u) /\
  _generic_float.raw (_generic_float.construct_default true false 0xDEADBEEF) <> 0.
Proof. split; [reflexivity | discriminate]. Qed.

(** C9. For the three wrapper classes and both declared orders, the copy
    constructor copies the raw stored bits verbatim. *)
Theorem copy_construction_is_verbatim :
  (forall T b (w : _generic_endian.t T b),
      _generic_endian.raw (_generic_endian.construct_copy w) =
      _generic_endian.raw w) /\
  (forall b (w : _generic_float.t b),
      _generic_float.raw (_generic_float.construct_copy w) =
      _generic_float.raw w) /\
  (forall b (w : _generic_double.t b),
      _generic_double.raw (_generic_double.construct_copy w) =
      _generic_double.raw w).
Proof. repeat split. Qed.

(** C10. The four 8-bit names are aliases of the native 8-bit types: no
    wrapper class is involved, construction, assignment and read are the
    identity whatever the host order, and the big- and little-endian names
    store the same representation. *)
Theorem eight_bit_names_are_native (n : type_name) (host_little_endian : bool)
    (ret_uninit old v : Z) :
  In n [int8_be; uint8_be; int8_le; uint8_le] ->
  (exists T, typedef n = Native T /\ bit_width T = 8) /\
  stored_by_init host_little_endian (typedef n) ret_uninit v = v /\
  stored_by_assign host_little_endian (typedef n) ret_uninit old v = v /\
  value_read host_little_endian (typedef n) ret_uninit v = v /\
  typedef int8_be = typedef int8_le /\
  typedef uint8_be = typedef uint8_le.
Proof.
  intros Hn. cbn [In] in Hn.
  destruct Hn as [<-|[<-|[<-|[<-|[]]]]]; cbn;
    (split; [eexists; split; reflexivity | repeat split]).
Qed.

Lemma eight_bit_names_are_native_witness :
  In int8_be [int8_be; uint8_be; int8_le; uint8_le] /\
  (exists T, typedef int8_be = Native T /\ bit_width T = 8) /\
  stored_by_init true (typedef int8_be) 0 (-2) = -2 /\
  stored_by_assign true (typedef int8_be) 0 5 (-2) = -2 /\
  value_read true (typedef int8_be) 0 (-2) = -2 /\
  typedef int8_be = typedef int8_le /\
  typedef uint8_be = typedef uint8_le.
Proof.
  assert (In int8_be [int8_be; uint8_be; int8_le; uint8_le]) as Hn
    by (cbn; auto).
  exact (conj Hn (eight_bit_names_are_native int8_be true 0 5 (-2) Hn)).
Defined.

(** * Further properties of the header *)

(** ** The primitives *)




(** X1. Whatever its argument, each primitive returns a pattern of its width
    whose byte sequence is the byte sequence of the argument in the opposite
    order. *)
Theorem primitives_reverse_byte_sequence (v : Z) :
  (le_bytes 2 (_generic_swap16 v) = rev (le_bytes 2 v) /\
   0 <= _generic_swap16 v < 2 ^ 16) /\
  (le_bytes 4 (_generic_swap32 v) = rev (le_bytes 4 v) /\
   0 <= _generic_swap32 v < 2 ^ 32) /\
  (le_bytes 8 (_generic_swap64 v) = rev (le_bytes 8 v) /\
   0 <= _generic_swap64 v < 2 ^ 64).
Proof.
  rewrite generic_swap16_reverse, generic_swap32_reverse, generic_swap64_reverse.
  rewrite !le_bytes_reverse.
  repeat split; apply reverse_range.
Qed.

(** X2. The ARMv7 formulation of the 64-bit primitive, built on any 32-bit
    primitive that agrees with the portable one on 32-bit patterns, returns
    what the portable 64-bit loop returns, for every argument. *)
Theorem armv7_swap64_agrees_with_portable (swap32 : Z -> Z) (v : Z) :
  (forall x, 0 <= x < 2 ^ 32 -> swap32 x = _generic_swap32 x) ->
  _generic_swap64_armv7 swap32 v = _generic_swap64 v.
Proof.
  intros Hswap. rewrite generic_swap64_reverse.
  apply generic_swap64_armv7_reverse.
  intros x Hx. rewrite Hswap by assumption. apply generic_swap32_reverse.
Qed.

Lemma armv7_swap64_agrees_with_portable_witness :
  (forall x, 0 <= x < 2 ^ 32 -> _generic_swap32 x = _generic_swap32 x) /\
  _generic_swap64_armv7 _generic_swap32 0x0102030405060708 =
  _generic_swap64 0x0102030405060708.
Proof.
  assert (forall x, 0 <= x < 2 ^ 32 -> _generic_swap32 x = _generic_swap32 x)
    as H by (intros; reflexivity).
  exact (conj H
    (armv7_swap64_agrees_with_portable _generic_swap32 0x0102030405060708 H)).
Defined.


(** ** The integer wrapper *)

Lemma reverse_of_le_bytes n p :
  length p = n -> Forall is_byte p -> reverse n (of_le_bytes p) = of_le_bytes (rev p).
Proof.
  intros <- Hp. unfold reverse. now rewrite le_bytes_of_le_bytes.
Qed.

Lemma bit_pattern_of_le_bytes T p :
  length p = byte_count T -> Forall is_byte p ->
  bit_pattern T (of_le_bytes p) = of_le_bytes p.
Proof.
  intros Hlen Hp. unfold bit_pattern. apply Z.mod_small.
  rewrite <- byte_count_width, <- Hlen. now apply of_le_bytes_range.
Qed.

(** X4. Assignment followed by a read returns the assigned value, whatever
    the wrapper held before: for the three widths, both signednesses, both
    declared orders and either host order. *)
Theorem assign_then_read (host_little_endian : bool) (T : int_type)
    (_is_big_endian : bool) (this : _generic_endian.t T _is_big_endian) (v : Z) :
  In (bit_width T) [16; 32; 64] ->
  representable T v ->
  _generic_endian.read host_little_endian
    (_generic_endian.assign host_little_endian this v) = v.
Proof.
  intros HT Hv. unfold _generic_endian.read, _generic_endian.assign.
  cbn [_generic_endian._raw]. now apply byte_order_twice.
Qed.

Lemma assign_then_read_witness :
  In (bit_width int32_t) [16; 32; 64] /\
  representable int32_t (-123456789) /\
  _generic_endian.read true
    (_generic_endian.assign true
       (@_generic_endian.Build int32_t true 77) (-123456789)) = -123456789.
Proof.
  assert (In (bit_width int32_t) [16; 32; 64]) as HT by (cbn; auto).
  assert (representable int32_t (-123456789)) as Hv by (cbn; lia).
  exact (conj HT (conj Hv
    (assign_then_read true int32_t true
       (@_generic_endian.Build int32_t true 77) (-123456789) HT Hv))).
Defined.

(** X5. Reading a wrapper and constructing a wrapper from the value read
    gives the same stored bits back, for any stored value of the underlying
    type (for instance one received in a buffer). *)
Theorem construct_of_read_restores (host_little_endian : bool) (T : int_type)
    (_is_big_endian : bool) (this : _generic_endian.t T _is_big_endian) :
  In (bit_width T) [16; 32; 64] ->
  representable T (_generic_endian.raw this) ->
  _generic_endian.construct host_little_endian T _is_big_endian
    (_generic_endian.read host_little_endian this) = this.
Proof.
  intros HT Hraw. destruct this as [r].
  unfold _generic_endian.construct, _generic_endian.read, _generic_endian.raw in *.
  cbn [_generic_endian._raw] in *. f_equal. now apply byte_order_twice.
Qed.

Lemma construct_of_read_restores_witness :
  In (bit_width uint16_t) [16; 32; 64] /\
  representable uint16_t (_generic_endian.raw (@_generic_endian.Build uint16_t true 0x1234)) /\
  _generic_endian.construct true uint16_t true
    (_generic_endian.read true (@_generic_endian.Build uint16_t true 0x1234)) =
  @_generic_endian.Build uint16_t true 0x1234.
Proof.
  assert (In (bit_width uint16_t) [16; 32; 64]) as HT by (cbn; auto).
  assert (representable uint16_t
            (_generic_endian.raw (@_generic_endian.Build uint16_t true 0x1234)))
    as Hraw by (cbn; lia).
  exact (conj HT (conj Hraw
    (construct_of_read_restores true uint16_t true
       (@_generic_endian.Build uint16_t true 0x1234) HT Hraw))).
Defined.

(** X6. Construction is injective: two values of the underlying type stored
    in wrappers of the same type give different stored bits unless they are
    equal. *)
Theorem construct_injective (host_little_endian : bool) (T : int_type)
    (_is_big_endian : bool) (v1 v2 : Z) :
  In (bit_width T) [16; 32; 64] ->
  representable T v1 ->
  representable T v2 ->
  _generic_endian.raw
    (_generic_endian.construct host_little_endian T _is_big_endian v1) =
  _generic_endian.raw
    (_generic_endian.construct host_little_endian T _is_big_endian v2) ->
  v1 = v2.
Proof.
  intros HT H1 H2 Heq.
  unfold _generic_endian.raw, _generic_endian.construct in Heq.
  cbn [_generic_endian._raw] in Heq.
  rewrite <- (byte_order_twice host_little_endian T _is_big_endian v1 HT H1).
  rewrite <- (byte_order_twice host_little_endian T _is_big_endian v2 HT H2).
  now rewrite Heq.
Qed.

Lemma construct_injective_witness :
  In (bit_width int16_t) [16; 32; 64] /\
  representable int16_t (-2) /\
  representable int16_t (-2) /\
  _generic_endian.raw (_generic_endian.construct true int16_t true (-2)) =
  _generic_endian.raw (_generic_endian.construct true int16_t true (-2)) /\
  -2 = -2.
Proof.
  assert (In (bit_width int16_t) [16; 32; 64]) as HT by (cbn; auto).
  assert (representable int16_t (-2)) as Hv by (cbn; lia).
  assert (_generic_endian.raw (_generic_endian.construct true int16_t true (-2)) =
          _generic_endian.raw (_generic_endian.construct true int16_t true (-2)))
    as Heq by reflexivity.
  exact (conj HT (conj Hv (conj Hv (conj Heq
    (construct_injective true int16_t true (-2) (-2) HT Hv Hv Heq))))).
Defined.

(** X7. The bytes the integer wrapper occupies in memory are the bytes of the
    value in the declared order, and therefore the same on a little-endian
    and on a big-endian host. *)
Theorem memory_image_is_host_independent (T : int_type) (_is_big_endian : bool)
    (v : Z) :
  In (bit_width T) [16; 32; 64] ->
  (forall host,
      object_bytes host (byte_count T)
        (bit_pattern T
           (_generic_endian.raw (_generic_endian.construct host T _is_big_endian v))) =
      buffer_bytes (declared_order _is_big_endian) (byte_count T) (bit_pattern T v)) /\
  object_bytes true (byte_count T)
    (bit_pattern T
       (_generic_endian.raw (_generic_endian.construct true T _is_big_endian v))) =
  object_bytes false (byte_count T)
    (bit_pattern T
       (_generic_endian.raw (_generic_endian.construct false T _is_big_endian v))).
Proof.
  intros HT. split.
  - intros host. now apply generic_endian_stores_declared_order.
  - now rewrite !generic_endian_stores_declared_order.
Qed.

Lemma memory_image_is_host_independent_witness :
  In (bit_width uint32_t) [16; 32; 64] /\
  object_bytes true (byte_count uint32_t)
    (bit_pattern uint32_t
       (_generic_endian.raw (_generic_endian.construct true uint32_t true 0x01020304))) =
  object_bytes false (byte_count uint32_t)
    (bit_pattern uint32_t
       (_generic_endian.raw (_generic_endian.construct false uint32_t true 0x01020304))).
Proof.
  assert (In (bit_width uint32_t) [16; 32; 64]) as HT by (cbn; auto).
  exact (conj HT
    (proj2 (memory_image_is_host_independent uint32_t true 0x01020304 HT))).
Defined.

(** X8. A wrapper laid over the bytes of a buffer reads the number those
    bytes encode in the declared order, converted to the underlying type, on
    a host of either order. *)
Theorem read_decodes_buffer (host_little_endian : bool) (T : int_type)
    (_is_big_endian : bool) (p : list Z) :
  In (bit_width T) [16; 32; 64] ->
  length p = byte_count T ->
  Forall is_byte p ->
  _generic_endian.read host_little_endian
    (@_generic_endian.Build T _is_big_endian
       (convert T (of_object_bytes host_little_endian p))) =
  convert T (of_buffer_bytes (declared_order _is_big_endian) p).
Proof.
  intros HT Hlen Hp. unfold _generic_endian.read. cbn [_generic_endian._raw].
  destruct (orders_agree_dec host_little_endian _is_big_endian) as [He|Hne].
  - rewrite byte_order_match by assumption.
    unfold of_object_bytes, of_buffer_bytes. now rewrite He.
  - rewrite byte_order_mismatch by assumption.
    rewrite bit_pattern_convert. f_equal.
    assert (length (rev p) = byte_count T) as Hlen' by now rewrite length_rev.
    assert (Forall is_byte (rev p)) as Hp' by now apply Forall_rev.
    unfold of_object_bytes, of_buffer_bytes.
    destruct host_little_endian, _is_big_endian;
      cbn in Hne |- *; try congruence;
      rewrite bit_pattern_of_le_bytes, reverse_of_le_bytes by assumption;
      now rewrite ?rev_involutive.
Qed.

Lemma read_decodes_buffer_witness :
  In (bit_width int16_t) [16; 32; 64] /\
  length [0xFF; 0xFE] = byte_count int16_t /\
  Forall is_byte [0xFF; 0xFE] /\
  _generic_endian.read true
    (@_generic_endian.Build int16_t true
       (convert int16_t (of_object_bytes true [0xFF; 0xFE]))) =
  convert int16_t (of_buffer_bytes (declared_order true) [0xFF; 0xFE]).
Proof.
  assert (In (bit_width int16_t) [16; 32; 64]) as HT by (cbn; auto).
  assert (length [0xFF; 0xFE] = byte_count int16_t) as Hlen by reflexivity.
  assert (Forall is_byte [0xFF; 0xFE]) as Hp
    by (repeat constructor; unfold is_byte; lia).
  exact (conj HT (conj Hlen (conj Hp
    (read_decodes_buffer true int16_t true [0xFF; 0xFE] HT Hlen Hp)))).
Defined.

(** X9. Instantiated at a one-byte type with a declared order that differs
    from the host's, the template selects the [: 0] alternative of the
    conditional expression: every value is stored as 0 and read back as 0. *)
Theorem one_byte_instantiation_stores_zero (host_little_endian : bool)
    (T : int_type) (_is_big_endian : bool) (v : Z) :
  bit_width T = 8 ->
  declared_order _is_big_endian <> host_order host_little_endian ->
  _generic_endian.raw
    (_generic_endian.construct host_little_endian T _is_big_endian v) = 0 /\
  _generic_endian.read host_little_endian
    (_generic_endian.construct host_little_endian T _is_big_endian v) = 0.
Proof.
  intros HT Hne.
  destruct T; cbn in HT; try discriminate;
    destruct host_little_endian, _is_big_endian; cbn in Hne; try congruence;
    split; reflexivity.
Qed.

Lemma one_byte_instantiation_stores_zero_witness :
  bit_width uint8_t = 8 /\
  declared_order true <> host_order true /\
  _generic_endian.raw (_generic_endian.construct true uint8_t true 0x12) = 0 /\
  _generic_endian.read true (_generic_endian.construct true uint8_t true 0x12) = 0.
Proof.
  assert (bit_width uint8_t = 8) as HT by reflexivity.
  assert (declared_order true <> host_order true) as Hne by (cbn; discriminate).
  exact (conj HT (conj Hne
    (one_byte_instantiation_stores_zero true uint8_t true 0x12 HT Hne))).
Defined.

(** X10. On any host, the big-endian and the little-endian wrapper of one
    value hold bit patterns that are byte reversals of each other. *)
Theorem big_and_little_endian_raw_are_reversals (host_little_endian : bool)
    (T : int_type) (v : Z) :
  In (bit_width T) [16; 32; 64] ->
  bit_pattern T
    (_generic_endian.raw (_generic_endian.construct host_little_endian T true v)) =
  reverse (byte_count T)
    (bit_pattern T
       (_generic_endian.raw (_generic_endian.construct host_little_endian T false v))).
Proof.
  intros HT. unfold _generic_endian.raw, _generic_endian.construct.
  cbn [_generic_endian._raw].
  destruct host_little_endian.
  - rewrite (byte_order_mismatch true T true) by (auto; cbn; discriminate).
    rewrite (byte_order_match true T false) by reflexivity.
    now rewrite bit_pattern_convert, bit_pattern_reverse.
  - rewrite (byte_order_match false T true) by reflexivity.
    rewrite (byte_order_mismatch false T false) by (auto; cbn; discriminate).
    rewrite bit_pattern_convert, bit_pattern_reverse, reverse_reverse.
    rewrite byte_count_width. symmetry. apply Z.mod_small, bit_pattern_range.
Qed.

Lemma big_and_little_endian_raw_are_reversals_witness :
  In (bit_width int64_t) [16; 32; 64] /\
  bit_pattern int64_t
    (_generic_endian.raw (_generic_endian.construct false int64_t true (-2))) =
  reverse (byte_count int64_t)
    (bit_pattern int64_t
       (_generic_endian.raw (_generic_endian.construct false int64_t false (-2)))).
Proof.
  assert (In (bit_width int64_t) [16; 32; 64]) as HT by (cbn; auto).
  exact (conj HT
    (big_and_little_endian_raw_are_reversals false int64_t (-2) HT)).
Defined.

(** X11. A default-constructed integer wrapper reads as 0, for every
    underlying type, declared order and host order. *)
Theorem default_constructed_reads_zero (host_little_endian : bool)
    (T : int_type) (_is_big_endian : bool) :
  _generic_endian.read host_little_endian
    (_generic_endian.construct_default T _is_big_endian) = 0.
Proof. destruct host_little_endian, T, _is_big_endian; reflexivity. Qed.

(** X12. Whatever bits the wrapper holds, the value read is a value of the
    underlying type. *)
Theorem read_is_representable (host_little_endian : bool) (T : int_type)
    (_is_big_endian : bool) (this : _generic_endian.t T _is_big_endian) :
  representable T (_generic_endian.raw this) ->
  representable T (_generic_endian.read host_little_endian this).
Proof.
  intros Hraw. unfold _generic_endian.read, _generic_endian.byte_order.
  unfold _generic_endian.raw in Hraw.
  destruct host_little_endian, _is_big_endian; cbn [negb];
    assumption || apply convert_is_representable.
Qed.

Lemma read_is_representable_witness :
  representable int16_t
    (_generic_endian.raw (@_generic_endian.Build int16_t true 0x7FFF)) /\
  representable int16_t
    (_generic_endian.read true (@_generic_endian.Build int16_t true 0x7FFF)).
Proof.
  assert (representable int16_t
            (_generic_endian.raw (@_generic_endian.Build int16_t true 0x7FFF)))
    as Hraw by (cbn; lia).
  exact (conj Hraw
    (read_is_representable true int16_t true
       (@_generic_endian.Build int16_t true 0x7FFF) Hraw)).
Defined.

(** X13. Every integer typedef of the header stores the bytes of the value in
    the order its name announces ([_be]: most significant byte first,
    [_le]: least significant byte first), on a host of either order. *)
Theorem integer_typedefs_store_named_order (n : type_name) (T : int_type)
    (b host_little_endian : bool) (ret_uninit v : Z) :
  typedef n = GenericEndian T b ->
  object_bytes host_little_endian (byte_count T)
    (bit_pattern T (stored_by_init host_little_endian (typedef n) ret_uninit v)) =
  buffer_bytes (name_order n) (byte_count T) (bit_pattern T v).
Proof.
  intros Hn. rewrite Hn. cbn [stored_by_init].
  destruct n; inversion Hn; subst;
    apply generic_endian_stores_declared_order; cbn; auto.
Qed.

Lemma integer_typedefs_store_named_order_witness :
  typedef int32_be = GenericEndian int32_t true /\
  object_bytes true (byte_count int32_t)
    (bit_pattern int32_t (stored_by_init true (typedef int32_be) 0 (-2))) =
  buffer_bytes (name_order int32_be) (byte_count int32_t) (bit_pattern int32_t (-2)).
Proof.
  assert (typedef int32_be = GenericEndian int32_t true) as Hn by reflexivity.
  exact (conj Hn
    (integer_typedefs_store_named_order int32_be int32_t true true 0 (-2) Hn)).
Defined.

(** ** The float and double wrappers *)

(** X14. When the declared order differs from the host's, the float wrapper
    stores the byte-reversed bit pattern and reads every 32-bit pattern back
    unchanged (NaN payloads included), whatever the uninitialised [ret]
    held; assignment stores what construction stores. *)
Theorem float_round_trip_when_orders_differ (host_little_endian : bool)
    (_is_big_endian : bool) (u1 u2 u3 old v : Z) :
  declared_order _is_big_endian <> host_order host_little_endian ->
  0 <= v < 2 ^ 32 ->
  _generic_float.raw
    (_generic_float.construct host_little_endian _is_big_endian u1 v) =
  _generic_swap32 v /\
  _generic_float.read host_little_endian u2
    (_generic_float.construct host_little_endian _is_big_endian u1 v) = v /\
  _generic_float.read host_little_endian u2
    (_generic_float.assign host_little_endian u3
       (@_generic_float.Build _is_big_endian old) v) = v.
Proof.
  intros Hne Hv. split; [|split].
  - unfold _generic_float.raw, _generic_float.construct.
    cbn [_generic_float._raw].
    now rewrite float_byte_order_mismatch, generic_swap32_reverse.
  - now apply float_round_trip_mismatch.
  - unfold _generic_float.read, _generic_float.assign.
    cbn [_generic_float._raw].
    rewrite !float_byte_order_mismatch by assumption.
    rewrite reverse_reverse. now apply Z.mod_small.
Qed.

Lemma float_round_trip_when_orders_differ_witness :
  declared_order true <> host_order true /\
  0 <= 0x7FC00001 < 2 ^ 32 /\
  _generic_float.raw (_generic_float.construct true true 5 0x7FC00001) =
  _generic_swap32 0x7FC00001 /\
  _generic_float.read true 6 (_generic_float.construct true true 5 0x7FC00001) =
  0x7FC00001 /\
  _generic_float.read true 6
    (_generic_float.assign true 7 (@_generic_float.Build true 8) 0x7FC00001) =
  0x7FC00001.
Proof.
  assert (declared_order true <> host_order true) as Hne by (cbn; discriminate).
  assert (0 <= 0x7FC00001 < 2 ^ 32) as Hv by lia.
  exact (conj Hne (conj Hv
    (float_round_trip_when_orders_differ true true 5 6 7 8 0x7FC00001 Hne Hv))).
Defined.

(** X15. When the declared order differs from the host's, the bytes the float
    wrapper occupies in memory are the bytes of the value's bit pattern in
    the declared order. *)
Theorem float_memory_image_when_orders_differ (host_little_endian : bool)
    (_is_big_endian : bool) (u v : Z) :
  declared_order _is_big_endian <> host_order host_little_endian ->
  object_bytes host_little_endian 4
    (_generic_float.raw
       (_generic_float.construct host_little_endian _is_big_endian u v)) =
  buffer_bytes (declared_order _is_big_endian) 4 v.
Proof. apply float_stores_declared_order_mismatch. Qed.

Lemma float_memory_image_when_orders_differ_witness :
  declared_order false <> host_order false /\
  object_bytes false 4
    (_generic_float.raw (_generic_float.construct false false 9 0x3F800000)) =
  buffer_bytes (declared_order false) 4 0x3F800000.
Proof.
  assert (declared_order false <> host_order false) as Hne by (cbn; discriminate).
  exact (conj Hne
    (float_memory_image_when_orders_differ false false 9 0x3F800000 Hne)).
Defined.

(** X16. When the declared order is the host's, the float wrapper's
    conversion routine never looks at its argument: construction stores, and
    a read returns, the contents of the uninitialised [ret], so two different
    values give the same stored bits. *)
Theorem float_ignores_value_when_orders_agree (host_little_endian : bool)
    (_is_big_endian : bool) (u u' v v' : Z)
    (this : _generic_float.t _is_big_endian) :
  declared_order _is_big_endian = host_order host_little_endian ->
  _generic_float.raw
    (_generic_float.construct host_little_endian _is_big_endian u v) = u /\
  _generic_float.construct host_little_endian _is_big_endian u v =
  _generic_float.construct host_little_endian _is_big_endian u v' /\
  _generic_float.read host_little_endian u' this = u'.
Proof.
  intros He.
  unfold _generic_float.raw, _generic_float.construct, _generic_float.read.
  cbn [_generic_float._raw].
  now rewrite !float_byte_order_match by assumption.
Qed.

Lemma float_ignores_value_when_orders_agree_witness :
  declared_order false = host_order true /\
  _generic_float.raw (_generic_float.construct true false 7 0x3F800000) = 7 /\
  _generic_float.construct true false 7 0x3F800000 =
  _generic_float.construct true false 7 0x40000000 /\
  _generic_float.read true 9 (@_generic_float.Build false 0x3F800000) = 9.
Proof.
  assert (declared_order false = host_order true) as He by reflexivity.
  exact (conj He
    (float_ignores_value_when_orders_agree true false 7 9 0x3F800000 0x40000000
       (@_generic_float.Build false 0x3F800000) He)).
Defined.



(** X18. A default-constructed float wrapper whose declared order differs
    from the host's, and a default-constructed double wrapper of either
    order, hold the all-zero pattern and read back as [+0.0]. *)
Theorem float_double_default_read_zero (host_little_endian : bool)
    (_is_big_endian : bool) (u1 u2 : Z) :
  declared_order _is_big_endian <> host_order host_little_endian ->
  _generic_float.raw
    (_generic_float.construct_default host_little_endian _is_big_endian u1) = 0 /\
  _generic_float.read host_little_endian u2
    (_generic_float.construct_default host_little_endian _is_big_endian u1) = 0 /\
  (forall b,
      _generic_double.raw
        (_generic_double.construct_default host_little_endian b u1) = 0 /\
      _generic_double.read host_little_endian u2
        (_generic_double.construct_default host_little_endian b u1) = 0).
Proof.
  intros Hne. split; [|split].
  - now apply generic_float_default_zero_mismatch.
  - unfold _generic_float.read, _generic_float.construct_default.
    cbn [_generic_float._raw].
    now rewrite !float_byte_order_mismatch by assumption.
  - intros b. split; reflexivity.
Qed.

Lemma float_double_default_read_zero_witness :
  declared_order true <> host_order true /\
  _generic_float.raw (_generic_float.construct_default true true 0xDEADBEEF) = 0 /\
  _generic_float.read true 0xDEADBEEF
    (_generic_float.construct_default true true 0xDEADBEEF) = 0 /\
  (forall b,
      _generic_double.raw (_generic_double.construct_default true b 0xDEADBEEF) = 0 /\
      _generic_double.read true 0xDEADBEEF
        (_generic_double.construct_default true b 0xDEADBEEF) = 0).
Proof.
  assert (declared_order true <> host_order true) as Hne by (cbn; discriminate).
  exact (conj Hne
    (float_double_default_read_zero true true 0xDEADBEEF 0xDEADBEEF Hne)).
Defined.
